(** * CodebaseOverviewModal: a shallow embedding of
      src/components/CodebaseOverviewModal.tsx

    The component keeps three [useState] cells, resets them in a
    [useEffect] keyed on the [isOpen] prop, runs the asynchronous
    [handleGenerate] when the "Generate Overview" button is clicked and
    renders one region of its [<main>] element by a nested conditional.

    The asynchronous function is embedded as a term of a small free monad
    [async] whose operations are the three state setters and the two awaited
    service calls; [try]/[catch]/[finally] are combinators on such terms.
    A [System] holds the props, the state cells, the suspended calls of
    [handleGenerate] and the log of requests sent to the two services; the
    function [step] runs one event (the parent toggling [isOpen], a click on
    the button, the settlement of an awaited promise) to the next suspension
    point. *)

From Stdlib Require Import Ascii String.
From stdpp Require Import base list strings.

(** ** Strings as the source uses them *)

(** The line feed of the template literal and of [join('\n')]. *)
Definition nl : string := String (ascii_of_nat 10) "".

(** [Array.prototype.join]: the elements with [sep] between them, the empty
    string for the empty array. *)
Definition join (sep : string) (l : list string) : string := String.concat sep l.

(** [String.prototype.split] with a one-character separator: never empty,
    [""] splits into [[""]]. *)
Fixpoint split (sep : ascii) (s : string) : list string :=
  match s with
  | EmptyString => [EmptyString]
  | String a s' =>
      if Ascii.eqb a sep then EmptyString :: split sep s'
      else match split sep s' with
           | [] => [String a EmptyString]
           | x :: xs => String a x :: xs
           end
  end.

(** The lines of a text: the pieces between line feeds. *)
Definition lines (s : string) : list string := split (ascii_of_nat 10) s.

(** JavaScript truthiness of a string, and of [string | null]. *)
Definition truthy (s : string) : bool := negb (String.eqb s "").

Definition truthy_opt (o : option string) : bool :=
  match o with
  | Some s => truthy s
  | None => false
  end.

(** [needle] occurs in [hay] (what [String.prototype.includes] decides). *)
Definition contains (hay needle : string) : Prop :=
  exists pre post, hay = pre +:+ needle +:+ post.

(** ** Data *)

(** The elements of the array [getAllFileContents] resolves with: the
    source reads [file.path] and [file.content]. *)
Record FetchedFile := { path : string; content : string }.

Inductive NodeKind := FileNode | DirectoryNode.

(** Modelled from the spec: [GitHubNode] is imported from [../types], which
    is not part of the sources; the spec's TreeNode has a path, a kind and
    an ordered sequence of children.  The component only passes the tree on
    to [getAllFileContents]. *)
#[local] Unset Elimination Schemes.
Inductive GitHubNode :=
  TreeNode (node_path : string) (kind : NodeKind) (children : list GitHubNode).
#[local] Set Elimination Schemes.

(** [CodebaseOverviewModalProps], without the [onClose] callback, which the
    component only hands to its close button and backdrop. *)
Record Props := {
  isOpen : bool;
  githubToken : string;
  repo : string;
  fileTree : list GitHubNode
}.

(** The three [useState] cells. *)
Record State := {
  isLoading : bool;
  overviewContent : string;
  error : option string
}.

(** The initial values given to [useState]. *)
Definition initialState : State :=
  {| isLoading := false; overviewContent := ""; error := None |}.

(** What a [catch] clause can receive: an [Error] carrying its [message],
    or any other thrown value ([err instanceof Error] is false). *)
Inductive thrown :=
| JsError (message : string)
| JsOther.

(** How an awaited promise settles. *)
Inductive settled (A : Type) :=
| Resolved (v : A)
| Rejected (e : thrown).
Arguments Resolved {A} v.
Arguments Rejected {A} e.

(** The arguments of [githubService.getAllFileContents]; [owner] and
    [repoName] come from destructuring an array and may be [undefined]. *)
Record FetchArgs := {
  arg_token : string;
  arg_owner : option string;
  arg_repoName : option string;
  arg_tree : list GitHubNode
}.

(** ** The free monad of [handleGenerate] *)

Inductive async (A : Type) : Type :=
| Ret (a : A)
| Throw (e : thrown)
| SetIsLoading (b : bool) (k : async A)
| SetOverviewContent (s : string) (k : async A)
| SetError (e : option string) (k : async A)
| AwaitFiles (args : FetchArgs) (k : settled (list FetchedFile) -> async A)
| AwaitOverview (doc : string) (k : settled string -> async A).
Arguments Ret {A} a.
Arguments Throw {A} e.
Arguments SetIsLoading {A} b k.
Arguments SetOverviewContent {A} s k.
Arguments SetError {A} e k.
Arguments AwaitFiles {A} args k.
Arguments AwaitOverview {A} doc k.

Fixpoint bind {A B : Type} (p : async A) (f : A -> async B) : async B :=
  match p with
  | Ret a => f a
  | Throw e => Throw e
  | SetIsLoading b k => SetIsLoading b (bind k f)
  | SetOverviewContent s k => SetOverviewContent s (bind k f)
  | SetError e k => SetError e (bind k f)
  | AwaitFiles args k => AwaitFiles args (fun r => bind (k r) f)
  | AwaitOverview doc k => AwaitOverview doc (fun r => bind (k r) f)
  end.

(** stdpp's monad notations: [x ← p; q] and [p;; q]. *)
#[global] Instance async_bind : MBind async := fun A B f p => bind p f.
#[global] Instance async_ret : MRet async := fun A a => Ret a.

(** [try { p } catch (err) { h err }] *)
Fixpoint try_catch {A : Type} (p : async A) (h : thrown -> async A) : async A :=
  match p with
  | Ret a => Ret a
  | Throw e => h e
  | SetIsLoading b k => SetIsLoading b (try_catch k h)
  | SetOverviewContent s k => SetOverviewContent s (try_catch k h)
  | SetError e k => SetError e (try_catch k h)
  | AwaitFiles args k => AwaitFiles args (fun r => try_catch (k r) h)
  | AwaitOverview doc k => AwaitOverview doc (fun r => try_catch (k r) h)
  end.

(** [try { p } finally { f }]: [f] runs on both exits and the exit of [p]
    is kept. *)
Fixpoint try_finally {A : Type} (p : async A) (f : async unit) : async A :=
  match p with
  | Ret a => bind f (fun _ => Ret a)
  | Throw e => bind f (fun _ => Throw e)
  | SetIsLoading b k => SetIsLoading b (try_finally k f)
  | SetOverviewContent s k => SetOverviewContent s (try_finally k f)
  | SetError e k => SetError e (try_finally k f)
  | AwaitFiles args k => AwaitFiles args (fun r => try_finally (k r) f)
  | AwaitOverview doc k => AwaitOverview doc (fun r => try_finally (k r) f)
  end.

Definition setIsLoading (b : bool) : async unit := SetIsLoading b (Ret tt).
Definition setOverviewContent (s : string) : async unit := SetOverviewContent s (Ret tt).
Definition setError (e : option string) : async unit := SetError e (Ret tt).

(** [await p]: the value a promise resolves with, or its rejection thrown. *)
Definition unsettle {A : Type} (r : settled A) : async A :=
  match r with
  | Resolved v => Ret v
  | Rejected e => Throw e
  end.

Definition await_getAllFileContents (args : FetchArgs) : async (list FetchedFile) :=
  AwaitFiles args unsettle.

Definition await_generateCodebaseOverview (doc : string) : async string :=
  AwaitOverview doc unsettle.

(** ** The document sent to the generation service *)

Definition separator : string :=
  "// ===================================================================================".

(** The template literal of the [map] callback. *)
Definition block (file : FetchedFile) : string :=
  nl +:+ "// Path: " +:+ path file +:+ nl +:+
  separator +:+ nl +:+
  nl +:+
  content file +:+ nl +:+
  nl +:+
  separator +:+ nl.

(** [allFiles.map(file => `...`).join('\n')] *)
Definition assemble (allFiles : list FetchedFile) : string :=
  join nl (map block allFiles).

(** ** [handleGenerate] *)

Definition noFilesMessage : string :=
  "No readable files found in the repository to generate an overview.".

Definition unknownErrorMessage : string := "An unknown error occurred.".

Definition failurePrefix : string := "Failed to generate overview: ".

(** [err instanceof Error ? err.message : 'An unknown error occurred.'] *)
Definition errorMessage (err : thrown) : string :=
  match err with
  | JsError message => message
  | JsOther => unknownErrorMessage
  end.

Definition handleGenerate (p : Props) : async unit :=
  setIsLoading true;;
  setError None;;
  setOverviewContent "";;
  try_finally
    (try_catch
       (let parts := split "/" (repo p) in
        let owner := parts !! 0 in
        let repoName := parts !! 1 in
        allFiles ← await_getAllFileContents
                     {| arg_token := githubToken p; arg_owner := owner;
                        arg_repoName := repoName; arg_tree := fileTree p |};
        (if Nat.eqb (length allFiles) 0
         then Throw (JsError noFilesMessage)
         else Ret tt);;
        let concatenatedContent := assemble allFiles in
        overview ← await_generateCodebaseOverview concatenatedContent;
        setOverviewContent overview)
       (fun err => setError (Some (failurePrefix +:+ errorMessage err))))
    (setIsLoading false).

(** ** Running [handleGenerate] between suspension points *)

(** A request sent to one of the two services. *)
Inductive call :=
| CallGetAllFileContents (args : FetchArgs)
| CallGenerateCodebaseOverview (doc : string).

(** A call of [handleGenerate] suspended at an [await]: what remains to be
    run once the promise settles. *)
Inductive suspended :=
| OnFiles (k : settled (list FetchedFile) -> async unit)
| OnOverview (k : settled string -> async unit).

(** How a run ends: the function returned, threw out of its body, or
    reached an [await]. *)
Inductive ending :=
| Finished
| Uncaught (e : thrown)
| Suspended (t : suspended).

(** Runs [p] on the state cells up to its end or its next [await]; the
    request of that [await] is appended to the log. *)
Fixpoint run (p : async unit) (s : State) (log : list call) : State * list call * ending :=
  match p with
  | Ret _ => (s, log, Finished)
  | Throw e => (s, log, Uncaught e)
  | SetIsLoading b k =>
      run k {| isLoading := b; overviewContent := overviewContent s; error := error s |} log
  | SetOverviewContent c k =>
      run k {| isLoading := isLoading s; overviewContent := c; error := error s |} log
  | SetError e k =>
      run k {| isLoading := isLoading s; overviewContent := overviewContent s; error := e |} log
  | AwaitFiles args k => (s, log ++ [CallGetAllFileContents args], Suspended (OnFiles k))
  | AwaitOverview doc k => (s, log ++ [CallGenerateCodebaseOverview doc], Suspended (OnOverview k))
  end.

(** ** Rendering *)

(** The four alternatives of the conditional inside [<main>]. *)
Inductive Region :=
| LoadingIndicator
| ErrorDisplay (message : string)
| Article (html : string)
| CallToAction.

(** [overviewContent && window.marked ? window.marked.parse(overviewContent) : ''] *)
Definition renderedHtml (marked : option (string -> string)) (s : State) : string :=
  if truthy (overviewContent s) then
    match marked with
    | Some parse => parse (overviewContent s)
    | None => ""
    end
  else "".

(** [isLoading ? ... : error ? ... : overviewContent ? ... : ...] *)
Definition mainRegion (marked : option (string -> string)) (s : State) : Region :=
  if isLoading s then LoadingIndicator
  else if truthy_opt (error s) then ErrorDisplay (default "" (error s))
  else if truthy (overviewContent s) then Article (renderedHtml marked s)
  else CallToAction.

(** The component's return value: [null] when [!isOpen], otherwise the
    panel, of which the region inside [<main>] is kept. *)
Definition render (marked : option (string -> string)) (p : Props) (s : State) : option Region :=
  if negb (isOpen p) then None else Some (mainRegion marked s).

(** ** The component and its environment *)

Record System := {
  window_marked : option (string -> string);
  props : Props;
  state : State;
  pending : list suspended;
  calls : list call
}.

(** The body of the effect: [if (!isOpen) { ... }]. *)
Definition resetEffect (open : bool) (s : State) : State :=
  if negb open then
    {| isLoading := false; overviewContent := ""; error := None |}
  else s.

Definition withOpen (p : Props) (b : bool) : Props :=
  {| isOpen := b; githubToken := githubToken p; repo := repo p; fileTree := fileTree p |}.

(** The component after mounting: [useState] defaults, then the effect. *)
Definition mount (marked : option (string -> string)) (p : Props) : System :=
  {| window_marked := marked; props := p;
     state := resetEffect (isOpen p) initialState;
     pending := []; calls := [] |}.

Inductive event :=
| SetOpen (b : bool)
| ClickGenerate
| SettleFiles (i : nat) (r : settled (list FetchedFile))
| SettleOverview (i : nat) (r : settled string).

(** The system after a run of the [i]-th suspended call (or of a new one,
    when [i] is the length of [pending]). *)
Definition resumed (sys : System) (i : nat) (out : State * list call * ending) : System :=
  let '(s, log, e) := out in
  {| window_marked := window_marked sys; props := props sys;
     state := s;
     pending := match e with
                | Suspended t =>
                    if decide (i < length (pending sys)) then <[i := t]> (pending sys)
                    else pending sys ++ [t]
                | _ => delete i (pending sys)
                end;
     calls := log |}.

(** One event.  [None] when the event cannot happen: the button is not on
    screen, or no call is suspended at [i] on a promise of that kind. *)
Definition step (sys : System) (ev : event) : option System :=
  match ev with
  | SetOpen b =>
      Some {| window_marked := window_marked sys;
              props := withOpen (props sys) b;
              state := if Bool.eqb b (isOpen (props sys)) then state sys
                       else resetEffect b (state sys);
              pending := pending sys; calls := calls sys |}
  | ClickGenerate =>
      match render (window_marked sys) (props sys) (state sys) with
      | Some CallToAction =>
          Some (resumed sys (length (pending sys))
                  (run (handleGenerate (props sys)) (state sys) (calls sys)))
      | _ => None
      end
  | SettleFiles i r =>
      match pending sys !! i with
      | Some (OnFiles k) => Some (resumed sys i (run (k r) (state sys) (calls sys)))
      | _ => None
      end
  | SettleOverview i r =>
      match pending sys !! i with
      | Some (OnOverview k) => Some (resumed sys i (run (k r) (state sys) (calls sys)))
      | _ => None
      end
  end.

Fixpoint exec (sys : System) (evs : list event) : option System :=
  match evs with
  | [] => Some sys
  | ev :: evs' =>
      match step sys ev with
      | Some sys' => exec sys' evs'
      | None => None
      end
  end.

(** The systems the component can be in. *)
Inductive reachable : System -> Prop :=
| reachable_mount marked p : reachable (mount marked p)
| reachable_step sys ev sys' :
    reachable sys -> step sys ev = Some sys' -> reachable sys'.

(** ** The state machine the three cells encode *)

Inductive GenerationState :=
| Idle
| Loading
| Success (content : string)
| Failure (message : string).

(** The state read off the cells in the order the render tests them. *)
Definition generationState (s : State) : GenerationState :=
  if isLoading s then Loading
  else if truthy_opt (error s) then Failure (default "" (error s))
  else if truthy (overviewContent s) then Success (overviewContent s)
  else Idle.

(** What remains of [handleGenerate] after each of its two [await]s. *)
Definition afterFiles (r : settled (list FetchedFile)) : async unit :=
  try_finally
    (try_catch
       (allFiles ← unsettle r;
        (if Nat.eqb (length allFiles) 0
         then Throw (JsError noFilesMessage)
         else Ret tt);;
        let concatenatedContent := assemble allFiles in
        overview ← await_generateCodebaseOverview concatenatedContent;
        setOverviewContent overview)
       (fun err => setError (Some (failurePrefix +:+ errorMessage err))))
    (setIsLoading false).

Definition afterOverview (r : settled string) : async unit :=
  try_finally
    (try_catch
       (overview ← unsettle r;
        setOverviewContent overview)
       (fun err => setError (Some (failurePrefix +:+ errorMessage err))))
    (setIsLoading false).

Definition fetchArgs (p : Props) : FetchArgs :=
  {| arg_token := githubToken p;
     arg_owner := split "/" (repo p) !! 0;
     arg_repoName := split "/" (repo p) !! 1;
     arg_tree := fileTree p |}.

(** ** Notions used in the statements *)

Definition ofHandleGenerate (t : suspended) : Prop :=
  t = OnFiles afterFiles \/ t = OnOverview afterOverview.

Definition finishedWith (sys : System) (i : nat) (s : State) : System :=
  {| window_marked := window_marked sys; props := props sys; state := s;
     pending := delete i (pending sys); calls := calls sys |}.

Definition failed (s : State) (msg : string) : State :=
  {| isLoading := false; overviewContent := overviewContent s;
     error := Some (failurePrefix +:+ msg) |}.

Definition succeeded (s : State) (overview : string) : State :=
  {| isLoading := false; overviewContent := overview; error := error s |}.

(** The states the cells hold: [Loading] by the flag, [Success] and
    [Failure] by their payloads, [Idle] when nothing is held. *)
Definition holds (s : State) (g : GenerationState) : Prop :=
  match g with
  | Idle => isLoading s = false /\ overviewContent s = "" /\ error s = None
  | Loading => isLoading s = true
  | Success content => overviewContent s = content /\ content <> ""
  | Failure message => error s = Some message
  end.

(** [hay.startsWith(needle)] and [hay.includes(needle)]. *)
Fixpoint startsWith (hay needle : string) : bool :=
  match needle, hay with
  | EmptyString, _ => true
  | String _ _, EmptyString => false
  | String a needle', String b hay' => Ascii.eqb a b && startsWith hay' needle'
  end.

Fixpoint includes (hay needle : string) : bool :=
  startsWith hay needle ||
  match hay with
  | EmptyString => false
  | String _ hay' => includes hay' needle
  end.

(** The lines of one element of the mapped array. *)
Definition blockLines (file : FetchedFile) : list string :=
  [""] ++ lines ("// Path: " +:+ path file) ++ [separator; ""] ++
  lines (content file) ++ [""; separator; ""].

(** The block as the specification lists it: path header line, separator
    line, blank line, content, blank line, closing separator line, every
    line ended by a line feed. *)
Definition listedBlock (file : FetchedFile) : string :=
  "// Path: " +:+ path file +:+ nl +:+
  separator +:+ nl +:+
  nl +:+
  content file +:+ nl +:+
  nl +:+
  separator +:+ nl.

(** ** Example files and systems *)

Definition fileA : FetchedFile := {| path := "a.txt"; content := "x" |}.
Definition fileB : FetchedFile := {| path := "b.txt"; content := "y" |}.

Definition exampleProps : Props :=
  {| isOpen := true; githubToken := "token"; repo := "owner/name";
     fileTree := [TreeNode "a.txt" FileNode []] |}.

(** After the click: one call suspended on the files. *)
Definition awaitingFiles : System :=
  {| window_marked := None; props := exampleProps;
     state := {| isLoading := true; overviewContent := ""; error := None |};
     pending := [OnFiles afterFiles];
     calls := [CallGetAllFileContents (fetchArgs exampleProps)] |}.

(** After the files arrived: the call is suspended on the overview. *)
Definition awaitingOverview : System :=
  {| window_marked := None; props := exampleProps;
     state := {| isLoading := true; overviewContent := ""; error := None |};
     pending := [OnOverview afterOverview];
     calls := [CallGetAllFileContents (fetchArgs exampleProps);
               CallGenerateCodebaseOverview (assemble [fileA])] |}.

Definition showingFailure : System :=
  {| window_marked := None; props := exampleProps;
     state := {| isLoading := false; overviewContent := "# old";
                 error := Some "Failed to generate overview: quota exceeded" |};
     pending := []; calls := [] |}.

(** A state showing an overview, with no formatting engine installed. *)
Definition showingSummary : System :=
  {| window_marked := None; props := exampleProps;
     state := {| isLoading := false; overviewContent := "## Summary"; error := None |};
     pending := [];
     calls := [CallGetAllFileContents (fetchArgs exampleProps);
               CallGenerateCodebaseOverview (assemble [fileA])] |}.

(** A failure on screen, reached by the files request rejecting. *)
Definition showingFailureReached : System :=
  {| window_marked := None; props := exampleProps;
     state := {| isLoading := false; overviewContent := "";
                 error := Some "Failed to generate overview: quota exceeded" |};
     pending := [];
     calls := [CallGetAllFileContents (fetchArgs exampleProps)] |}.

(** Two overlapping calls: the first is waiting for its overview when the
    panel is dismissed and reopened; the second fails on its files. *)
Definition overlappingTrace : list event :=
  [ClickGenerate; SettleFiles 0 (Resolved [fileA]); SetOpen false; SetOpen true;
   ClickGenerate; SettleFiles 1 (Rejected (JsError "quota exceeded"))].

Definition failedWhileAwaiting : System :=
  {| window_marked := None; props := exampleProps;
     state := {| isLoading := false; overviewContent := "";
                 error := Some "Failed to generate overview: quota exceeded" |};
     pending := [OnOverview afterOverview];
     calls := [CallGetAllFileContents (fetchArgs exampleProps);
               CallGenerateCodebaseOverview (assemble [fileA]);
               CallGetAllFileContents (fetchArgs exampleProps)] |}.

(** The overview of the first of two overlapping calls arrives after the
    second call has failed: both payload cells are filled. *)
Definition bothPayloads : System :=
  {| window_marked := None; props := exampleProps;
     state := {| isLoading := false; overviewContent := "# Overview";
                 error := Some "Failed to generate overview: quota exceeded" |};
     pending := [];
     calls := [CallGetAllFileContents (fetchArgs exampleProps);
               CallGenerateCodebaseOverview (assemble [fileA]);
               CallGetAllFileContents (fetchArgs exampleProps)] |}.

(** ** The transitions of the component *)

(** The cells right after the three setters that open [handleGenerate]. *)
Definition loadingState : State :=
  {| isLoading := true; overviewContent := ""; error := None |}.

(** Two calls waiting for their overviews at once: the second was started
    after the panel was dismissed and reopened. *)
Definition twoAwaitingTrace : list event :=
  [ClickGenerate; SettleFiles 0 (Resolved [fileA]); SetOpen false; SetOpen true;
   ClickGenerate; SettleFiles 1 (Resolved [fileB])].

Definition twoAwaiting : System :=
  {| window_marked := None; props := exampleProps;
     state := loadingState;
     pending := [OnOverview afterOverview; OnOverview afterOverview];
     calls := [CallGetAllFileContents (fetchArgs exampleProps);
               CallGenerateCodebaseOverview (assemble [fileA]);
               CallGetAllFileContents (fetchArgs exampleProps);
               CallGenerateCodebaseOverview (assemble [fileB])] |}.

(** What one event does, with the suspended calls known to be calls of
    [handleGenerate]: the prop changes, the button is clicked, or a promise
    settles and the call either ends or moves on to its second [await]. *)
Inductive transition (sys : System) : System -> Prop :=
| transition_open b :
    transition sys
      {| window_marked := window_marked sys; props := withOpen (props sys) b;
         state := if Bool.eqb b (isOpen (props sys)) then state sys
                  else resetEffect b (state sys);
         pending := pending sys; calls := calls sys |}
| transition_click :
    isOpen (props sys) = true ->
    generationState (state sys) = Idle ->
    transition sys
      {| window_marked := window_marked sys; props := props sys;
         state := loadingState;
         pending := pending sys ++ [OnFiles afterFiles];
         calls := calls sys ++ [CallGetAllFileContents (fetchArgs (props sys))] |}
| transition_files_failed i msg :
    pending sys !! i = Some (OnFiles afterFiles) ->
    transition sys (finishedWith sys i (failed (state sys) msg))
| transition_files_arrived i f files :
    pending sys !! i = Some (OnFiles afterFiles) ->
    transition sys
      {| window_marked := window_marked sys; props := props sys;
         state := state sys;
         pending := <[i := OnOverview afterOverview]> (pending sys);
         calls := calls sys ++ [CallGenerateCodebaseOverview (assemble (f :: files))] |}
| transition_overview_resolved i overview :
    pending sys !! i = Some (OnOverview afterOverview) ->
    transition sys (finishedWith sys i (succeeded (state sys) overview))
| transition_overview_rejected i e :
    pending sys !! i = Some (OnOverview afterOverview) ->
    transition sys (finishedWith sys i (failed (state sys) (errorMessage e))).

(** ** Counting requests and suspended calls *)

Definition countIf {A : Type} (f : A -> bool) (l : list A) : nat :=
  length (List.filter f l).

Definition isFetch (c : call) : bool :=
  match c with CallGetAllFileContents _ => true | _ => false end.

Definition isGenerate (c : call) : bool :=
  match c with CallGenerateCodebaseOverview _ => true | _ => false end.

Definition onFiles (t : suspended) : bool :=
  match t with OnFiles _ => true | _ => false end.

Definition onOverview (t : suspended) : bool :=
  match t with OnOverview _ => true | _ => false end.

(** The document of a request to the generation service was assembled from
    a non-empty array of files. *)
Definition wellFormedCall (c : call) : Prop :=
  match c with
  | CallGetAllFileContents _ => True
  | CallGenerateCodebaseOverview doc =>
      exists f files, doc = assemble (f :: files) /\ doc <> ""
  end.

(** [s.includes(c)] for a single character. *)
Fixpoint hasChar (c : ascii) (s : string) : bool :=
  match s with
  | EmptyString => false
  | String a s' => Ascii.eqb a c || hasChar c s'
  end.

(** One file whose content runs from the content of [f] over the end of
    the block of [f] and the head of the block of [g] to the content of
    [g]. *)
Definition merged (f g : FetchedFile) : FetchedFile :=
  {| path := path f;
     content := content f +:+ nl +:+
                nl +:+
                separator +:+ nl +:+
                nl +:+
                nl +:+ "// Path: " +:+ path g +:+ nl +:+
                separator +:+ nl +:+
                nl +:+
                content g |}.

(** * Proofs *)

(** ** Runs of [handleGenerate] and of its two continuations *)

Lemma run_handleGenerate p s log :
  run (handleGenerate p) s log =
  ({| isLoading := true; overviewContent := ""; error := None |},
   log ++ [CallGetAllFileContents (fetchArgs p)],
   Suspended (OnFiles afterFiles)).
Proof. reflexivity. Qed.

Lemma run_afterFiles_nonempty f files s log :
  run (afterFiles (Resolved (f :: files))) s log =
  (s, log ++ [CallGenerateCodebaseOverview (assemble (f :: files))],
   Suspended (OnOverview afterOverview)).
Proof. reflexivity. Qed.

Lemma run_afterFiles_rejected e s log :
  run (afterFiles (Rejected e)) s log =
  ({| isLoading := false; overviewContent := overviewContent s;
      error := Some (failurePrefix +:+ errorMessage e) |}, log, Finished).
Proof. reflexivity. Qed.

Lemma run_afterFiles_empty s log :
  run (afterFiles (Resolved [])) s log =
  ({| isLoading := false; overviewContent := overviewContent s;
      error := Some (failurePrefix +:+ noFilesMessage) |}, log, Finished).
Proof. reflexivity. Qed.

Lemma run_afterOverview_resolved overview s log :
  run (afterOverview (Resolved overview)) s log =
  ({| isLoading := false; overviewContent := overview; error := error s |},
   log, Finished).
Proof. reflexivity. Qed.

Lemma run_afterOverview_rejected e s log :
  run (afterOverview (Rejected e)) s log =
  ({| isLoading := false; overviewContent := overviewContent s;
      error := Some (failurePrefix +:+ errorMessage e) |}, log, Finished).
Proof. reflexivity. Qed.

(** ** Every suspended call is a call of [handleGenerate] *)

Lemma reachable_exec sys evs sys' :
  reachable sys -> exec sys evs = Some sys' -> reachable sys'.
Proof.
  revert sys; induction evs as [|ev evs IH]; intros sys Hr; simpl.
  - intros [= <-]; exact Hr.
  - destruct (step sys ev) as [sys1|] eqn:Hstep; [|discriminate].
    apply IH. exact (reachable_step _ _ _ Hr Hstep).
Qed.

Lemma pending_ofHandleGenerate sys :
  reachable sys -> Forall ofHandleGenerate (pending sys).
Proof.
  induction 1 as [marked p | sys ev sys' _ IH Hstep]; [constructor|].
  destruct ev as [b | | i r | i r]; cbn [step] in Hstep.
  - apply (inj Some) in Hstep; subst sys'; exact IH.
  - destruct (render _ _ _) as [[| | |]|]; try discriminate.
    apply (inj Some) in Hstep; subst sys'. rewrite run_handleGenerate; simpl.
    rewrite decide_False by lia.
    apply Forall_app; split; [exact IH|].
    repeat constructor.
  - destruct (pending sys !! i) as [[k|k]|] eqn:Hi; try discriminate.
    apply (inj Some) in Hstep; subst sys'.
    destruct (proj1 (Forall_lookup _ _) IH _ _ Hi) as [[= ->]|[=]].
    destruct r as [[|f files]|e].
    + rewrite run_afterFiles_empty; simpl. by apply Forall_delete.
    + rewrite run_afterFiles_nonempty; simpl.
      rewrite decide_True by (by eapply lookup_lt_Some).
      apply Forall_insert; [exact IH|]. by right.
    + rewrite run_afterFiles_rejected; simpl. by apply Forall_delete.
  - destruct (pending sys !! i) as [[k|k]|] eqn:Hi; try discriminate.
    apply (inj Some) in Hstep; subst sys'.
    destruct (proj1 (Forall_lookup _ _) IH _ _ Hi) as [[=]|[= ->]].
    destruct r as [overview|e].
    + rewrite run_afterOverview_resolved; simpl. by apply Forall_delete.
    + rewrite run_afterOverview_rejected; simpl. by apply Forall_delete.
Qed.

Lemma pending_files sys i k :
  reachable sys -> pending sys !! i = Some (OnFiles k) -> k = afterFiles.
Proof.
  intros Hr Hi.
  by destruct (proj1 (Forall_lookup _ _) (pending_ofHandleGenerate _ Hr) _ _ Hi)
    as [[= ->]|[=]].
Qed.

Lemma pending_overview sys i k :
  reachable sys -> pending sys !! i = Some (OnOverview k) -> k = afterOverview.
Proof.
  intros Hr Hi.
  by destruct (proj1 (Forall_lookup _ _) (pending_ofHandleGenerate _ Hr) _ _ Hi)
    as [[=]|[= ->]].
Qed.

(** ** What each settlement does to a reachable system *)

Section Settlements.
Variable sys : System.
Variable i : nat.
Hypothesis Hreach : reachable sys.

Lemma step_files_rejected k e :
  pending sys !! i = Some (OnFiles k) ->
  step sys (SettleFiles i (Rejected e)) =
  Some (finishedWith sys i (failed (state sys) (errorMessage e))).
Proof.
  intros Hi. rewrite (pending_files _ _ _ Hreach Hi) in Hi.
  cbn [step]. rewrite Hi, run_afterFiles_rejected. reflexivity.
Qed.

Lemma step_files_empty k :
  pending sys !! i = Some (OnFiles k) ->
  step sys (SettleFiles i (Resolved [])) =
  Some (finishedWith sys i (failed (state sys) noFilesMessage)).
Proof.
  intros Hi. rewrite (pending_files _ _ _ Hreach Hi) in Hi.
  cbn [step]. rewrite Hi, run_afterFiles_empty. reflexivity.
Qed.

Lemma step_files_nonempty k f files :
  pending sys !! i = Some (OnFiles k) ->
  step sys (SettleFiles i (Resolved (f :: files))) =
  Some {| window_marked := window_marked sys; props := props sys;
          state := state sys;
          pending := <[i := OnOverview afterOverview]> (pending sys);
          calls := calls sys ++ [CallGenerateCodebaseOverview (assemble (f :: files))] |}.
Proof.
  intros Hi. rewrite (pending_files _ _ _ Hreach Hi) in Hi.
  cbn [step]. rewrite Hi, run_afterFiles_nonempty. cbn [resumed].
  rewrite decide_True by (by eapply lookup_lt_Some). reflexivity.
Qed.

Lemma step_overview_resolved k overview :
  pending sys !! i = Some (OnOverview k) ->
  step sys (SettleOverview i (Resolved overview)) =
  Some (finishedWith sys i (succeeded (state sys) overview)).
Proof.
  intros Hi. rewrite (pending_overview _ _ _ Hreach Hi) in Hi.
  cbn [step]. rewrite Hi, run_afterOverview_resolved. reflexivity.
Qed.

Lemma step_overview_rejected k e :
  pending sys !! i = Some (OnOverview k) ->
  step sys (SettleOverview i (Rejected e)) =
  Some (finishedWith sys i (failed (state sys) (errorMessage e))).
Proof.
  intros Hi. rewrite (pending_overview _ _ _ Hreach Hi) in Hi.
  cbn [step]. rewrite Hi, run_afterOverview_rejected. reflexivity.
Qed.
End Settlements.

Lemma append_cons a s t : String a s +:+ t = String a (s +:+ t).
Proof. reflexivity. Qed.

Lemma append_nil_r s : s +:+ "" = s.
Proof. induction s as [|a s IH]; [done|]. by rewrite append_cons, IH. Qed.

Lemma append_assoc s1 s2 s3 : (s1 +:+ s2) +:+ s3 = s1 +:+ s2 +:+ s3.
Proof. induction s1 as [|a s1 IH]; [done|]. by rewrite !append_cons, IH. Qed.

Lemma contains_suffix pre s : contains (pre +:+ s) s.
Proof. exists pre, "". by rewrite append_nil_r. Qed.

(** ** Example systems *)

Lemma reachable_awaitingFiles : reachable awaitingFiles.
Proof.
  apply (reachable_exec (mount None exampleProps) [ClickGenerate]);
    [constructor | reflexivity].
Qed.

Lemma reachable_awaitingOverview : reachable awaitingOverview.
Proof.
  apply (reachable_exec awaitingFiles [SettleFiles 0 (Resolved [fileA])]);
    [exact reachable_awaitingFiles | reflexivity].
Qed.

(** ** The orchestrator *)

(** C1: for every props (so for every file tree) and every reachable
    system, when the files promise of a suspended call resolves with the
    empty array, the next state is [Failure] with the fixed "no readable
    files" message, no request is added to the log (the generation service
    is not called) and the call is over, so it cannot call it later either.
    From a fresh open panel, the click gives [Loading], the empty array
    gives [Failure] in the next step, and the only request ever sent is the
    one for the files. *)
Theorem empty_aggregation_fails :
  (forall sys i k,
     reachable sys ->
     pending sys !! i = Some (OnFiles k) ->
     exists sys',
       step sys (SettleFiles i (Resolved [])) = Some sys' /\
       generationState (state sys') =
         Failure "Failed to generate overview: No readable files found in the repository to generate an overview." /\
       calls sys' = calls sys /\
       pending sys' = delete i (pending sys)) /\
  (forall marked p,
     isOpen p = true ->
     exists loading sys',
       step (mount marked p) ClickGenerate = Some loading /\
       generationState (state loading) = Loading /\
       step loading (SettleFiles 0 (Resolved [])) = Some sys' /\
       generationState (state sys') =
         Failure "Failed to generate overview: No readable files found in the repository to generate an overview." /\
       calls sys' = [CallGetAllFileContents (fetchArgs p)] /\
       pending sys' = []).
Proof.
  split.
  - intros sys i k Hr Hi.
    eexists; split; [exact (step_files_empty _ _ Hr _ Hi)|].
    repeat split.
  - intros marked p Hopen.
    assert (Hclick : step (mount marked p) ClickGenerate =
              Some {| window_marked := marked; props := p;
                      state := {| isLoading := true; overviewContent := "";
                                  error := None |};
                      pending := [OnFiles afterFiles];
                      calls := [CallGetAllFileContents (fetchArgs p)] |}).
    { cbn [step mount window_marked props state]. unfold render.
      rewrite Hopen. reflexivity. }
    do 2 eexists. split; [exact Hclick|]. split; [reflexivity|].
    split.
    + apply (step_files_empty _ 0
               (reachable_step _ _ _ (reachable_mount _ _) Hclick) afterFiles).
      reflexivity.
    + repeat split.
Qed.

Lemma empty_aggregation_fails_witness :
  (exists sys',
     step awaitingFiles (SettleFiles 0 (Resolved [])) = Some sys' /\
     generationState (state sys') =
       Failure "Failed to generate overview: No readable files found in the repository to generate an overview." /\
     calls sys' = calls awaitingFiles /\
     pending sys' = delete 0 (pending awaitingFiles)) /\
  (exists loading sys',
     step (mount None exampleProps) ClickGenerate = Some loading /\
     generationState (state loading) = Loading /\
     step loading (SettleFiles 0 (Resolved [])) = Some sys' /\
     generationState (state sys') =
       Failure "Failed to generate overview: No readable files found in the repository to generate an overview." /\
     calls sys' = [CallGetAllFileContents (fetchArgs exampleProps)] /\
     pending sys' = []).
Proof.
  split.
  - apply (proj1 empty_aggregation_fails awaitingFiles 0 afterFiles);
      [exact reachable_awaitingFiles | reflexivity].
  - apply (proj2 empty_aggregation_fails None exampleProps). reflexivity.
Defined.

(** C3: when the files promise or the overview promise of a suspended call
    rejects with [e], the next state is [Failure] with the message
    "Failed to generate overview: " followed by the message of [e] when [e]
    is an [Error] and by "An unknown error occurred." otherwise; for an
    [Error] with message "quota exceeded" the failure message contains
    "quota exceeded". *)
Theorem rejection_fails sys i e :
  reachable sys ->
  let msg := "Failed to generate overview: " +:+
             match e with
             | JsError message => message
             | JsOther => "An unknown error occurred."
             end in
  (forall k, pending sys !! i = Some (OnFiles k) ->
     exists sys', step sys (SettleFiles i (Rejected e)) = Some sys' /\
                  generationState (state sys') = Failure msg) /\
  (forall k, pending sys !! i = Some (OnOverview k) ->
     exists sys', step sys (SettleOverview i (Rejected e)) = Some sys' /\
                  generationState (state sys') = Failure msg) /\
  (e = JsError "quota exceeded" -> contains msg "quota exceeded").
Proof.
  intros Hr msg. repeat split.
  - intros k Hi. eexists; split; [exact (step_files_rejected _ _ Hr _ e Hi)|].
    by destruct e.
  - intros k Hi. eexists; split; [exact (step_overview_rejected _ _ Hr _ e Hi)|].
    by destruct e.
  - intros ->. apply contains_suffix.
Qed.

Lemma rejection_fails_witness :
  exists sys',
    step awaitingOverview (SettleOverview 0 (Rejected (JsError "quota exceeded"))) = Some sys' /\
    generationState (state sys') = Failure "Failed to generate overview: quota exceeded".
Proof.
  exact (proj1 (proj2 (rejection_fails awaitingOverview 0 (JsError "quota exceeded")
                         reachable_awaitingOverview))
           afterOverview eq_refl).
Defined.

Lemma step_files_inv sys i r sys' :
  step sys (SettleFiles i r) = Some sys' ->
  exists k, pending sys !! i = Some (OnFiles k).
Proof.
  cbn [step]. destruct (pending sys !! i) as [[k|k]|]; try discriminate.
  by exists k.
Qed.

Lemma step_overview_inv sys i r sys' :
  step sys (SettleOverview i r) = Some sys' ->
  exists k, pending sys !! i = Some (OnOverview k).
Proof.
  cbn [step]. destruct (pending sys !! i) as [[k|k]|]; try discriminate.
  by exists k.
Qed.

(** While [isLoading] is set the other two cells are clear: the cell is
    only set at the start of [handleGenerate], together with the clearing
    of the other two, and every later write clears it. *)
Lemma loading_cells sys :
  reachable sys -> isLoading (state sys) = true ->
  state sys = {| isLoading := true; overviewContent := ""; error := None |}.
Proof.
  induction 1 as [marked p | sys ev sys' Hr IH Hstep].
  - simpl. by destruct (isOpen p).
  - destruct ev as [b | | i r | i r].
    + cbn [step] in Hstep. apply (inj Some) in Hstep; subst sys'; simpl.
      destruct (Bool.eqb b (isOpen (props sys))); [exact IH|].
      destruct b; [exact IH | discriminate].
    + cbn [step] in Hstep.
      destruct (render _ _ _) as [[| | |]|]; try discriminate.
      rewrite run_handleGenerate in Hstep.
      by apply (inj Some) in Hstep; subst sys'.
    + destruct (step_files_inv _ _ _ _ Hstep) as [k Hi].
      destruct r as [[|f files]|e].
      * rewrite (step_files_empty _ _ Hr _ Hi) in Hstep.
        by apply (inj Some) in Hstep; subst sys'.
      * rewrite (step_files_nonempty _ _ Hr _ _ _ Hi) in Hstep.
        by apply (inj Some) in Hstep; subst sys'.
      * rewrite (step_files_rejected _ _ Hr _ _ Hi) in Hstep.
        by apply (inj Some) in Hstep; subst sys'.
    + destruct (step_overview_inv _ _ _ _ Hstep) as [k Hi].
      destruct r as [overview|e].
      * rewrite (step_overview_resolved _ _ Hr _ _ Hi) in Hstep.
        by apply (inj Some) in Hstep; subst sys'.
      * rewrite (step_overview_rejected _ _ Hr _ _ Hi) in Hstep.
        by apply (inj Some) in Hstep; subst sys'.
Qed.

(** C7: when the panel is dismissed ([isOpen] goes from true to false) the
    effect clears all three cells, whatever they held: the next state is
    [Idle], with no overview content and no error message left. *)
Theorem reset_yields_idle sys :
  isOpen (props sys) = true ->
  exists sys',
    step sys (SetOpen false) = Some sys' /\
    generationState (state sys') = Idle /\
    isLoading (state sys') = false /\
    overviewContent (state sys') = "" /\
    error (state sys') = None.
Proof.
  intros Hopen. eexists; split; [reflexivity|].
  cbn [state]. rewrite Hopen. by cbn.
Qed.

Lemma reset_yields_idle_witness :
  generationState (state awaitingOverview) = Loading /\
  generationState (state showingFailure) =
    Failure "Failed to generate overview: quota exceeded" /\
  (exists sys',
     step awaitingOverview (SetOpen false) = Some sys' /\
     generationState (state sys') = Idle /\
     isLoading (state sys') = false /\
     overviewContent (state sys') = "" /\
     error (state sys') = None) /\
  (exists sys',
     step showingFailure (SetOpen false) = Some sys' /\
     generationState (state sys') = Idle /\
     isLoading (state sys') = false /\
     overviewContent (state sys') = "" /\
     error (state sys') = None).
Proof.
  repeat split.
  - apply (reset_yields_idle awaitingOverview). reflexivity.
  - apply (reset_yields_idle showingFailure). reflexivity.
Defined.

(** The claim of C5 fails: the panel is dismissed while the generation
    request is in flight, the state is [Idle], and the late response moves
    it to [Success]. *)
Lemma late_response_leaves_idle :
  exists idle late,
    reachable awaitingOverview /\
    generationState (state awaitingOverview) = Loading /\
    step awaitingOverview (SetOpen false) = Some idle /\
    generationState (state idle) = Idle /\
    step idle (SettleOverview 0 (Resolved "late")) = Some late /\
    generationState (state late) = Success "late" /\
    generationState (state late) <> Idle.
Proof.
  do 2 eexists. split; [exact reachable_awaitingOverview|].
  split; [reflexivity|]. split; [reflexivity|]. split; [reflexivity|].
  split; [reflexivity|]. split; [reflexivity|]. discriminate.
Qed.

(** C5, as the code has it: dismissing the panel while the generation
    request is in flight gives [Idle] at once and leaves the request
    suspended; when the late response arrives it is applied: [Success] for
    a non-empty overview, [Idle] still for the empty one, [Failure] for a
    rejection. *)
Theorem reset_then_late_response sys i k :
  reachable sys ->
  isOpen (props sys) = true ->
  pending sys !! i = Some (OnOverview k) ->
  exists idle,
    step sys (SetOpen false) = Some idle /\
    generationState (state idle) = Idle /\
    pending idle = pending sys /\
    (forall overview, exists late,
        step idle (SettleOverview i (Resolved overview)) = Some late /\
        generationState (state late) =
          if truthy overview then Success overview else Idle) /\
    (forall e, exists late,
        step idle (SettleOverview i (Rejected e)) = Some late /\
        generationState (state late) =
          Failure ("Failed to generate overview: " +:+ errorMessage e)).
Proof.
  intros Hr Hopen Hi.
  assert (Hstep : step sys (SetOpen false) =
                  Some {| window_marked := window_marked sys;
                          props := withOpen (props sys) false;
                          state := initialState;
                          pending := pending sys; calls := calls sys |}).
  { cbn [step]. by rewrite Hopen. }
  pose proof (reachable_step _ _ _ Hr Hstep) as Hr'.
  eexists; split; [exact Hstep|]. repeat split.
  - intros overview. eexists; split;
      [exact (step_overview_resolved _ _ Hr' _ overview Hi)|].
    cbn. by destruct (truthy overview).
  - intros e. eexists; split;
      [exact (step_overview_rejected _ _ Hr' _ e Hi)|].
    reflexivity.
Qed.

Lemma reset_then_late_response_witness :
  exists idle,
    step awaitingOverview (SetOpen false) = Some idle /\
    generationState (state idle) = Idle /\
    pending idle = pending awaitingOverview /\
    (forall overview, exists late,
        step idle (SettleOverview 0 (Resolved overview)) = Some late /\
        generationState (state late) =
          if truthy overview then Success overview else Idle) /\
    (forall e, exists late,
        step idle (SettleOverview 0 (Rejected e)) = Some late /\
        generationState (state late) =
          Failure ("Failed to generate overview: " +:+ errorMessage e)).
Proof.
  apply (reset_then_late_response awaitingOverview 0 afterOverview);
    [exact reachable_awaitingOverview | reflexivity | reflexivity].
Defined.

(** C10: every settlement of a promise a call of [handleGenerate] awaits
    either ends the call, and then [isLoading] is false, or is the files
    promise resolving with a non-empty array, after which the call awaits
    the overview promise, whose settlement ends it: no call stays suspended
    after its last promise settled, and none ends with [isLoading] set. *)
Theorem settled_attempt_is_not_loading sys i :
  reachable sys ->
  (forall k r, pending sys !! i = Some (OnOverview k) ->
     exists sys',
       step sys (SettleOverview i r) = Some sys' /\
       pending sys' = delete i (pending sys) /\
       isLoading (state sys') = false /\
       generationState (state sys') <> Loading) /\
  (forall k r, pending sys !! i = Some (OnFiles k) ->
     exists sys',
       step sys (SettleFiles i r) = Some sys' /\
       ((pending sys' = delete i (pending sys) /\
         isLoading (state sys') = false /\
         generationState (state sys') <> Loading) \/
        (exists f files k',
           r = Resolved (f :: files) /\
           pending sys' = <[i := OnOverview k']> (pending sys) /\
           pending sys' !! i = Some (OnOverview k')))).
Proof.
  intros Hr. split.
  - intros k [overview|e] Hi.
    + eexists; split; [exact (step_overview_resolved _ _ Hr _ overview Hi)|].
      repeat split. unfold generationState; cbn. by repeat case_match.
    + eexists; split; [exact (step_overview_rejected _ _ Hr _ e Hi)|].
      by repeat split.
  - intros k [[|f files]|e] Hi.
    + eexists; split; [exact (step_files_empty _ _ Hr _ Hi)|].
      left. by repeat split.
    + eexists; split; [exact (step_files_nonempty _ _ Hr _ f files Hi)|].
      right. exists f, files, afterOverview. repeat split.
      cbn [pending]. apply list_lookup_insert_eq. by eapply lookup_lt_Some.
    + eexists; split; [exact (step_files_rejected _ _ Hr _ e Hi)|].
      left. by repeat split.
Qed.

Lemma settled_attempt_is_not_loading_witness :
  (exists sys',
     step awaitingOverview (SettleOverview 0 (Resolved "# Overview")) = Some sys' /\
     pending sys' = delete 0 (pending awaitingOverview) /\
     isLoading (state sys') = false /\
     generationState (state sys') <> Loading) /\
  (exists sys',
     step awaitingFiles (SettleFiles 0 (Rejected JsOther)) = Some sys' /\
     ((pending sys' = delete 0 (pending awaitingFiles) /\
       isLoading (state sys') = false /\
       generationState (state sys') <> Loading) \/
      (exists f files k',
         @Rejected (list FetchedFile) JsOther = Resolved (f :: files) /\
         pending sys' = <[0 := OnOverview k']> (pending awaitingFiles) /\
         pending sys' !! 0 = Some (OnOverview k')))).
Proof.
  split.
  - exact (proj1 (settled_attempt_is_not_loading awaitingOverview 0
                    reachable_awaitingOverview)
             afterOverview (Resolved "# Overview") eq_refl).
  - exact (proj2 (settled_attempt_is_not_loading awaitingFiles 0
                    reachable_awaitingFiles)
             afterFiles (Rejected JsOther) eq_refl).
Defined.

(** ** The presentation *)

(** The claim of C4 fails: the generation request resolves with
    "## Summary" and [window.marked] is absent; the article region is
    rendered with the empty string, which does not contain "Summary". *)
Lemma no_engine_shows_nothing :
  step awaitingOverview (SettleOverview 0 (Resolved "## Summary")) = Some showingSummary /\
  generationState (state showingSummary) = Success "## Summary" /\
  render (window_marked showingSummary) (props showingSummary) (state showingSummary) =
    Some (Article "") /\
  ~ contains "" "Summary".
Proof.
  repeat split. intros (pre & post & H). by destruct pre.
Qed.

(** C4, as the code has it: in a [Success] state the article region is
    rendered; its markup is the empty string when [window.marked] is
    absent, and what [window.marked.parse] returns for the content when it
    is present. *)
Theorem success_rendering s content :
  generationState s = Success content ->
  content <> "" /\
  mainRegion None s = Article "" /\
  forall parse, mainRegion (Some parse) s = Article (parse content).
Proof.
  unfold generationState, mainRegion, renderedHtml.
  destruct (isLoading s); [done|].
  destruct (truthy_opt (error s)); [done|].
  destruct (truthy (overviewContent s)) eqn:Ht; [|done].
  intros [= <-]. repeat split.
  intros Hempty. by rewrite Hempty in Ht.
Qed.

Lemma success_rendering_witness :
  mainRegion None (state showingSummary) = Article "" /\
  forall parse, mainRegion (Some parse) (state showingSummary) = Article (parse "## Summary").
Proof.
  exact (proj2 (success_rendering (state showingSummary) "## Summary" eq_refl)).
Defined.

(** ** The assembled document *)

Lemma startsWith_app needle post : startsWith (needle +:+ post) needle = true.
Proof.
  induction needle as [|a needle IH]; [by destruct post|].
  rewrite append_cons. cbn [startsWith]. by rewrite Ascii.eqb_refl, IH.
Qed.

Lemma includes_complete hay needle : contains hay needle -> includes hay needle = true.
Proof.
  intros (pre & post & ->). induction pre as [|a pre IH].
  - change ("" +:+ needle +:+ post) with (needle +:+ post).
    destruct (needle +:+ post) eqn:E; cbn [includes];
      rewrite <- E, startsWith_app; reflexivity.
  - rewrite append_cons. cbn [includes]. rewrite IH. apply orb_true_r.
Qed.

Lemma split_cons sep s : exists x xs, split sep s = x :: xs.
Proof.
  induction s as [|a s (x & xs & IH)]; [by eexists _, _|].
  cbn [split]. destruct (Ascii.eqb a sep); [by eexists _, _|].
  rewrite IH. by eexists _, _.
Qed.

(** Splitting distributes over a separator between two texts. *)
Lemma split_app sep a b :
  split sep (a +:+ String sep b) = split sep a ++ split sep b.
Proof.
  induction a as [|c a IH].
  - change ("" +:+ String sep b) with (String sep b).
    cbn [split]. by rewrite Ascii.eqb_refl.
  - rewrite append_cons. cbn [split]. rewrite IH.
    destruct (Ascii.eqb c sep); [reflexivity|].
    by destruct (split_cons sep a) as (x & xs & ->).
Qed.

Lemma lines_app a b : lines (a +:+ nl +:+ b) = lines a ++ lines b.
Proof. apply split_app. Qed.

Lemma lines_block file : lines (block file) = blockLines file.
Proof.
  unfold block, blockLines.
  change (nl +:+ "// Path: " +:+ path file +:+ nl +:+ separator +:+ nl +:+ nl +:+
          content file +:+ nl +:+ nl +:+ separator +:+ nl)
    with ("" +:+ nl +:+ "// Path: " +:+ path file +:+ nl +:+ separator +:+ nl +:+
          "" +:+ nl +:+ content file +:+ nl +:+ "" +:+ nl +:+ separator +:+ nl +:+ "").
  rewrite lines_app.
  rewrite <- (append_assoc "// Path: " (path file)).
  rewrite !lines_app. reflexivity.
Qed.

Lemma assemble_cons f g files :
  assemble (f :: g :: files) = block f +:+ nl +:+ assemble (g :: files).
Proof. reflexivity. Qed.

Lemma assemble_app pre post :
  pre <> [] -> post <> [] ->
  assemble (pre ++ post) = assemble pre +:+ nl +:+ assemble post.
Proof.
  intros Hpre Hpost. induction pre as [|f [|g pre] IH]; [done| |].
  - destruct post as [|h post]; [done|]. apply assemble_cons.
  - change ((f :: g :: pre) ++ post) with (f :: g :: (pre ++ post)).
    rewrite !assemble_cons.
    change (g :: pre ++ post) with ((g :: pre) ++ post).
    rewrite IH by done. by rewrite !append_assoc.
Qed.

Lemma lines_assemble f files :
  lines (assemble (f :: files)) = flat_map blockLines (f :: files).
Proof.
  revert f; induction files as [|g files IH]; intros f.
  - change (assemble [f]) with (block f).
    rewrite lines_block. cbn [flat_map]. by rewrite app_nil_r.
  - rewrite assemble_cons, lines_app, lines_block, IH. reflexivity.
Qed.

(** C2: for a non-empty array of files, the lines of the document are the
    lines of the files' blocks, one block per file in the order of the
    array, each block holding the header line of the file's path once and
    the lines of its content unchanged between the two separator lines;
    and around each file the document is the document of the files before
    it, a line feed, the file's own block, a line feed and the document of
    the files after it, so the text of two neighbours is never run
    together. *)
Theorem assembled_blocks files :
  files <> [] ->
  lines (assemble files) = flat_map blockLines files /\
  forall before file after,
    files = before ++ file :: after ->
    assemble files =
      (match before with [] => "" | _ => assemble before +:+ nl end) +:+
      (nl +:+ "// Path: " +:+ path file +:+ nl +:+
       separator +:+ nl +:+
       nl +:+
       content file +:+ nl +:+
       nl +:+
       separator +:+ nl) +:+
      (match after with [] => "" | _ => nl +:+ assemble after end).
Proof.
  intros Hne. split.
  - destruct files as [|f files]; [done|]. apply lines_assemble.
  - intros before file after ->. fold (block file).
    destruct before as [|b before], after as [|a after].
    + cbn [app]. change (assemble [file]) with (block file).
      by rewrite append_nil_r.
    + cbn [app]. by rewrite assemble_cons.
    + rewrite assemble_app by done.
      change (assemble [file]) with (block file).
      by rewrite append_nil_r, append_assoc.
    + rewrite assemble_app by done.
      by rewrite assemble_cons, !append_assoc.
Qed.

Lemma assembled_blocks_witness :
  [fileA; fileB] <> [] /\
  lines (assemble [fileA; fileB]) =
    [""; "// Path: a.txt"; separator; ""; "x"; ""; separator; "";
     ""; "// Path: b.txt"; separator; ""; "y"; ""; separator; ""] /\
  forall before file after,
    [fileA; fileB] = before ++ file :: after ->
    assemble [fileA; fileB] =
      (match before with [] => "" | _ => assemble before +:+ nl end) +:+
      (nl +:+ "// Path: " +:+ path file +:+ nl +:+
       separator +:+ nl +:+
       nl +:+
       content file +:+ nl +:+
       nl +:+
       separator +:+ nl) +:+
      (match after with [] => "" | _ => nl +:+ assemble after end).
Proof.
  split; [discriminate|].
  apply (assembled_blocks [fileA; fileB]). discriminate.
Defined.

(** The claim of C6 fails: with two files, the lines between the closing
    separator of the first block and the header of the second are two
    blank lines, and nowhere in the document do the two listed blocks
    stand with one blank line between them. *)
Lemma two_blank_lines_between_blocks :
  lines (assemble [fileA; fileB]) =
    [""; "// Path: a.txt"; separator; ""; "x"; ""; separator;
     ""; "";
     "// Path: b.txt"; separator; ""; "y"; ""; separator; ""] /\
  ~ contains (assemble [fileA; fileB])
      (listedBlock fileA +:+ nl +:+ listedBlock fileB).
Proof.
  split; [reflexivity|].
  intros H. apply includes_complete in H. vm_compute in H. discriminate.
Qed.

(** C6, as the code has it: the document of the empty array is empty;
    otherwise it is a line feed followed by the listed blocks of the files
    (header line, separator line, blank line, content, blank line, closing
    separator line, the same for every file) in the order of the array,
    with two line feeds, that is two blank lines, between the closing
    separator line of one block and the header line of the next. *)
Theorem assembled_format :
  assemble [] = "" /\
  forall file files,
    assemble (file :: files) =
      nl +:+ join (nl +:+ nl) (map listedBlock (file :: files)).
Proof.
  split; [reflexivity|].
  intros file files; revert file.
  induction files as [|g files IH]; intros f; [reflexivity|].
  rewrite assemble_cons, IH.
  change (map listedBlock (f :: g :: files))
    with (listedBlock f :: map listedBlock (g :: files)).
  change (join (nl +:+ nl) (listedBlock f :: map listedBlock (g :: files)))
    with (listedBlock f +:+ (nl +:+ nl) +:+ join (nl +:+ nl) (map listedBlock (g :: files))).
  change (block f) with (nl +:+ listedBlock f).
  by rewrite !append_assoc.
Qed.

(** ** Transitions of reachable systems *)

Lemma step_transition sys ev sys' :
  reachable sys -> step sys ev = Some sys' -> transition sys sys'.
Proof.
  intros Hr Hstep. destruct ev as [b | | i r | i r].
  - cbn [step] in Hstep. apply (inj Some) in Hstep; subst sys'. constructor.
  - cbn [step] in Hstep. unfold render in Hstep.
    destruct (isOpen (props sys)) eqn:Hopen; [|discriminate].
    cbn [negb] in Hstep.
    destruct (mainRegion _ _) eqn:Hregion; try discriminate.
    rewrite run_handleGenerate in Hstep. cbn [resumed] in Hstep.
    rewrite decide_False in Hstep by lia.
    apply (inj Some) in Hstep; subst sys'.
    apply transition_click; [done|].
    unfold mainRegion in Hregion. unfold generationState.
    by repeat case_match.
  - destruct (step_files_inv _ _ _ _ Hstep) as [k Hi].
    pose proof (pending_files _ _ _ Hr Hi) as ->.
    destruct r as [[|f files]|e].
    + rewrite (step_files_empty _ _ Hr _ Hi) in Hstep.
      apply (inj Some) in Hstep; subst sys'. by constructor.
    + rewrite (step_files_nonempty _ _ Hr _ _ _ Hi) in Hstep.
      apply (inj Some) in Hstep; subst sys'. by constructor.
    + rewrite (step_files_rejected _ _ Hr _ _ Hi) in Hstep.
      apply (inj Some) in Hstep; subst sys'. by constructor.
  - destruct (step_overview_inv _ _ _ _ Hstep) as [k Hi].
    pose proof (pending_overview _ _ _ Hr Hi) as ->.
    destruct r as [overview|e].
    + rewrite (step_overview_resolved _ _ Hr _ _ Hi) in Hstep.
      apply (inj Some) in Hstep; subst sys'. by constructor.
    + rewrite (step_overview_rejected _ _ Hr _ _ Hi) in Hstep.
      apply (inj Some) in Hstep; subst sys'. by constructor.
Qed.

Lemma reachable_showingFailureReached : reachable showingFailureReached.
Proof.
  apply (reachable_exec awaitingFiles
           [SettleFiles 0 (Rejected (JsError "quota exceeded"))]);
    [exact reachable_awaitingFiles | reflexivity].
Qed.

Lemma countIf_app {A : Type} (f : A -> bool) (l1 l2 : list A) :
  countIf f (l1 ++ l2) = countIf f l1 + countIf f l2.
Proof. unfold countIf. by rewrite List.filter_app, length_app. Qed.

Lemma countIf_cons {A : Type} (f : A -> bool) x (l : list A) :
  countIf f (x :: l) = (if f x then 1 else 0) + countIf f l.
Proof. unfold countIf; cbn. by destruct (f x). Qed.

Lemma countIf_delete {A : Type} (f : A -> bool) (l : list A) i x :
  l !! i = Some x ->
  countIf f (delete i l) + (if f x then 1 else 0) = countIf f l.
Proof.
  intros Hi. rewrite <- (take_drop_middle l i x Hi) at 2.
  rewrite delete_take_drop, !countIf_app, countIf_cons. lia.
Qed.

Lemma countIf_insert {A : Type} (f : A -> bool) (l : list A) i x y :
  l !! i = Some x ->
  countIf f (<[i := y]> l) + (if f x then 1 else 0) =
  countIf f l + (if f y then 1 else 0).
Proof.
  intros Hi. rewrite <- (take_drop_middle l i x Hi) at 2.
  rewrite insert_take_drop by (by eapply lookup_lt_Some).
  rewrite !countIf_app, !countIf_cons. lia.
Qed.

Lemma assemble_nonempty f files : assemble (f :: files) <> "".
Proof.
  destruct files as [|g files];
    [change (assemble [f]) with (block f) | rewrite assemble_cons];
    unfold block, nl; rewrite !append_cons; discriminate.
Qed.

(** ** Invariants of the reachable systems *)

(** X1: in every reachable system the generation service has been called
    at most once per call of [handleGenerate] and only after that call's
    files request: the generation requests plus the calls still waiting for
    their files never exceed the files requests, no more calls wait for an
    overview than generation requests were sent, and every generation
    request carries the document of a non-empty array of files, which is
    not the empty string. *)
Theorem requests_in_order sys :
  reachable sys ->
  countIf isGenerate (calls sys) + countIf onFiles (pending sys)
    <= countIf isFetch (calls sys) /\
  countIf onOverview (pending sys) <= countIf isGenerate (calls sys) /\
  Forall wellFormedCall (calls sys).
Proof.
  induction 1 as [marked p | sys ev sys' Hr (IH1 & IH2 & IH3) Hstep].
  - repeat split; cbn; [lia | lia | constructor].
  - destruct (step_transition _ _ _ Hr Hstep) as
      [b | Hopen Hidle | i msg Hi | i f files Hi | i overview Hi | i e Hi];
      cbn [finishedWith pending calls].
    + done.
    + rewrite !countIf_app. cbn. split_and!; [lia | lia |].
      apply Forall_app; split; [done | by repeat constructor].
    + pose proof (countIf_delete onFiles _ _ _ Hi).
      pose proof (countIf_delete onOverview _ _ _ Hi). cbn in *.
      split_and!; [lia | lia | done].
    + pose proof (countIf_insert onFiles _ _ _ (OnOverview afterOverview) Hi).
      pose proof (countIf_insert onOverview _ _ _ (OnOverview afterOverview) Hi).
      rewrite !countIf_app. cbn in *. split_and!; [lia | lia |].
      apply Forall_app; split; [done|].
      repeat constructor. exists f, files. split; [done|].
      apply assemble_nonempty.
    + pose proof (countIf_delete onFiles _ _ _ Hi).
      pose proof (countIf_delete onOverview _ _ _ Hi). cbn in *.
      split_and!; [lia | lia | done].
    + pose proof (countIf_delete onFiles _ _ _ Hi).
      pose proof (countIf_delete onOverview _ _ _ Hi). cbn in *.
      split_and!; [lia | lia | done].
Qed.

Lemma requests_in_order_witness :
  countIf isGenerate (calls awaitingOverview) + countIf onFiles (pending awaitingOverview)
    <= countIf isFetch (calls awaitingOverview) /\
  countIf onOverview (pending awaitingOverview) <= countIf isGenerate (calls awaitingOverview) /\
  Forall wellFormedCall (calls awaitingOverview).
Proof.
  exact (requests_in_order awaitingOverview reachable_awaitingOverview).
Defined.

(** X2: in every reachable system the error cell is either [null] or a
    message that starts with "Failed to generate overview: "; in particular
    it is never the empty string, so the render's test [error ? ...] is the
    test [error !== null]. *)
Theorem errors_are_prefixed sys :
  reachable sys ->
  (error (state sys) = None \/
   exists msg, error (state sys) = Some ("Failed to generate overview: " +:+ msg)) /\
  (truthy_opt (error (state sys)) = true <-> error (state sys) <> None).
Proof.
  intros Hr.
  assert (H : error (state sys) = None \/
              exists msg, error (state sys) = Some (failurePrefix +:+ msg)).
  { induction Hr as [marked p | sys ev sys' Hr IH Hstep].
    - left. cbn. by destruct (isOpen p).
    - destruct (step_transition _ _ _ Hr Hstep) as
        [b | Hopen Hidle | i msg Hi | i f files Hi | i overview Hi | i e Hi];
        cbn [finishedWith state failed succeeded error loadingState];
        eauto.
      destruct (Bool.eqb b (isOpen (props sys))); [done|].
      destruct b; [done | by left]. }
  split; [exact H|].
  destruct H as [-> | [msg ->]]; cbn; [split; [discriminate | done]|].
  done.
Qed.

Lemma errors_are_prefixed_witness :
  error (state showingFailureReached) = None \/
  exists msg, error (state showingFailureReached) =
              Some ("Failed to generate overview: " +:+ msg).
Proof.
  exact (proj1 (errors_are_prefixed showingFailureReached reachable_showingFailureReached)).
Defined.

(** X3: in every reachable system in which [isLoading] is set, the other
    two cells are clear and at least one call of [handleGenerate] is still
    suspended: the loading indicator is never shown without a request that
    will end it. *)
Theorem loading_has_outstanding_call sys :
  reachable sys ->
  isLoading (state sys) = true ->
  overviewContent (state sys) = "" /\
  error (state sys) = None /\
  pending sys <> [].
Proof.
  intros Hr Hload.
  rewrite (loading_cells _ Hr Hload). split_and!; [done | done |].
  induction Hr as [marked p | sys ev sys' Hr IH Hstep].
  - cbn in Hload. by destruct (isOpen p).
  - destruct (step_transition _ _ _ Hr Hstep) as
      [b | Hopen Hidle | i msg Hi | i f files Hi | i overview Hi | i e Hi];
      cbn [finishedWith state pending failed succeeded isLoading] in *;
      try discriminate.
    + apply IH. destruct (Bool.eqb b (isOpen (props sys))); [done|].
      by destruct b.
    + by destruct (pending sys).
    + intros Hnil. apply (f_equal length) in Hnil.
      rewrite length_insert in Hnil. apply IH; [done|].
      by destruct (pending sys).
Qed.

Lemma loading_has_outstanding_call_witness :
  overviewContent (state awaitingFiles) = "" /\
  error (state awaitingFiles) = None /\
  pending awaitingFiles <> [].
Proof.
  exact (loading_has_outstanding_call awaitingFiles reachable_awaitingFiles eq_refl).
Defined.

(** ** Starting an attempt *)

(** X4: the "Generate Overview" button can be clicked exactly when the
    panel is open and the state is [Idle]; the click sets [isLoading],
    clears the other two cells, sends one request for the files with the
    token and the tree of the props and suspends one more call; no request
    goes to the generation service yet, and the button is gone, so it
    cannot be clicked a second time. *)
Theorem click_starts_one_attempt sys :
  (is_Some (step sys ClickGenerate) <->
   isOpen (props sys) = true /\ generationState (state sys) = Idle) /\
  forall sys',
    step sys ClickGenerate = Some sys' ->
    state sys' = loadingState /\
    (exists owner repoName,
       calls sys' = calls sys ++
         [CallGetAllFileContents
            {| arg_token := githubToken (props sys); arg_owner := owner;
               arg_repoName := repoName; arg_tree := fileTree (props sys) |}]) /\
    pending sys' = pending sys ++ [OnFiles afterFiles] /\
    step sys' ClickGenerate = None.
Proof.
  assert (Hclick : forall sys',
            step sys ClickGenerate = Some sys' ->
            isOpen (props sys) = true /\ generationState (state sys) = Idle /\
            sys' = {| window_marked := window_marked sys; props := props sys;
                      state := loadingState;
                      pending := pending sys ++ [OnFiles afterFiles];
                      calls := calls sys ++
                               [CallGetAllFileContents (fetchArgs (props sys))] |}).
  { intros sys' Hstep. cbn [step] in Hstep. unfold render in Hstep.
    destruct (isOpen (props sys)) eqn:Hopen; [|discriminate].
    cbn [negb] in Hstep.
    destruct (mainRegion _ _) eqn:Hregion; try discriminate.
    rewrite run_handleGenerate in Hstep. cbn [resumed] in Hstep.
    rewrite decide_False in Hstep by lia.
    apply (inj Some) in Hstep; subst sys'. split_and!; [done | | done].
    unfold mainRegion in Hregion. unfold generationState.
    by repeat case_match. }
  split; [split|].
  - intros [sys' Hstep]. by destruct (Hclick _ Hstep) as (? & ? & _).
  - intros [Hopen Hidle]. cbn [step]. unfold render, mainRegion.
    unfold generationState in Hidle. rewrite Hopen. cbn [negb].
    by repeat case_match.
  - intros sys' Hstep. destruct (Hclick _ Hstep) as (Hopen & Hidle & ->).
    cbn [state calls pending]. split_and!; [done | by eexists _, _ | done |].
    cbn [step window_marked props state]. unfold render. by rewrite Hopen.
Qed.

Lemma click_starts_one_attempt_witness :
  exists sys',
    step (mount None exampleProps) ClickGenerate = Some sys' /\
    state sys' = loadingState /\
    pending sys' = [OnFiles afterFiles] /\
    step sys' ClickGenerate = None.
Proof.
  exists awaitingFiles. split; [reflexivity|].
  destruct (proj2 (click_starts_one_attempt (mount None exampleProps))
              awaitingFiles eq_refl) as (Hstate & _ & Hpending & Hagain).
  repeat split; assumption.
Defined.

Lemma hasChar_split sep s : hasChar sep s = false -> split sep s = [s].
Proof.
  induction s as [|a s IH]; [done|]. cbn [hasChar split].
  destruct (Ascii.eqb a sep); [discriminate|].
  cbn [orb]. intros H. by rewrite (IH H).
Qed.

(** X5: the owner and the repository name sent with the files request are
    the first two pieces of the [repo] prop between slashes: for
    "owner/name" they are [owner] and [name], further pieces after a second
    slash are dropped, and for a [repo] without a slash the whole string is
    sent as the owner and the repository name is [undefined]. *)
Theorem fetch_arguments p s log :
  let request owner repoName :=
    (loadingState,
     log ++ [CallGetAllFileContents
               {| arg_token := githubToken p; arg_owner := owner;
                  arg_repoName := repoName; arg_tree := fileTree p |}],
     Suspended (OnFiles afterFiles)) in
  (forall owner name,
     hasChar "/" owner = false -> hasChar "/" name = false ->
     (repo p = owner +:+ "/" +:+ name ->
      run (handleGenerate p) s log = request (Some owner) (Some name)) /\
     (forall extra,
        repo p = owner +:+ "/" +:+ name +:+ "/" +:+ extra ->
        run (handleGenerate p) s log = request (Some owner) (Some name))) /\
  (hasChar "/" (repo p) = false ->
   run (handleGenerate p) s log = request (Some (repo p)) None).
Proof.
  intros request. subst request. cbv beta.
  rewrite run_handleGenerate. unfold fetchArgs. split.
  - intros owner name Howner Hname. split.
    + intros ->.
      change (owner +:+ "/" +:+ name) with (owner +:+ String "/" name).
      by rewrite split_app, !hasChar_split.
    + intros extra ->.
      change (owner +:+ "/" +:+ name +:+ "/" +:+ extra)
        with (owner +:+ String "/" (name +:+ String "/" extra)).
      rewrite !split_app, !hasChar_split by done.
      by destruct (split_cons "/" extra) as (x & xs & ->).
  - intros Hrepo. by rewrite hasChar_split.
Qed.

Lemma fetch_arguments_witness :
  run (handleGenerate exampleProps) initialState [] =
  (loadingState,
   [CallGetAllFileContents
      {| arg_token := "token"; arg_owner := Some "owner";
         arg_repoName := Some "name";
         arg_tree := [TreeNode "a.txt" FileNode []] |}],
   Suspended (OnFiles afterFiles)).
Proof.
  exact (proj1 (proj1 (fetch_arguments exampleProps initialState [])
                  "owner" "name" eq_refl eq_refl) eq_refl).
Defined.

(** X6: [handleGenerate] never throws out of its body: whatever the cells
    hold and however the two promises settle, the call is suspended at the
    files request, then either returns or is suspended at the generation
    request, and then returns; the promise it returns never rejects. *)
Theorem handleGenerate_never_throws p s log :
  exists s1 log1 k1,
    run (handleGenerate p) s log = (s1, log1, Suspended (OnFiles k1)) /\
    forall r1 s2 log2,
      (run (k1 r1) s2 log2).2 = Finished \/
      exists k2,
        (run (k1 r1) s2 log2).2 = Suspended (OnOverview k2) /\
        forall r2 s3 log3, (run (k2 r2) s3 log3).2 = Finished.
Proof.
  do 3 eexists. split; [reflexivity|].
  intros [[|f files]|e] s2 log2; [by left | | by left].
  right. eexists. split; [reflexivity|].
  by intros [overview|e] s3 log3.
Qed.

(** ** A whole attempt *)

Lemma delete_insert_same {A : Type} (l : list A) i y :
  delete i (<[i := y]> l) = delete i l.
Proof.
  revert i; induction l as [|x l IH]; intros [|i]; try reflexivity.
  cbn. f_equal. apply IH.
Qed.

Lemma reachable_failedWhileAwaiting : reachable failedWhileAwaiting.
Proof.
  apply (reachable_exec (mount None exampleProps) overlappingTrace);
    [constructor | reflexivity].
Qed.

(** X7: a successful attempt.  When the files promise of a call resolves
    with a non-empty array while the state is [Loading], the cells do not
    change, one request carrying the assembled document of exactly these
    files goes to the generation service and the call waits for it; when
    that promise resolves with a non-empty overview the state is [Success]
    with that text, the article region shows what [window.marked.parse]
    makes of it (nothing without the engine), no further request is sent
    and the call is over. *)
Theorem successful_attempt sys i k f files overview :
  reachable sys ->
  generationState (state sys) = Loading ->
  pending sys !! i = Some (OnFiles k) ->
  truthy overview = true ->
  exists waiting finished,
    step sys (SettleFiles i (Resolved (f :: files))) = Some waiting /\
    state waiting = state sys /\
    calls waiting =
      calls sys ++ [CallGenerateCodebaseOverview (assemble (f :: files))] /\
    step waiting (SettleOverview i (Resolved overview)) = Some finished /\
    generationState (state finished) = Success overview /\
    mainRegion (window_marked finished) (state finished) =
      Article (match window_marked sys with
               | Some parse => parse overview
               | None => ""
               end) /\
    calls finished = calls waiting /\
    pending finished = delete i (pending sys).
Proof.
  intros Hr Hload Hi Htext.
  assert (Hcells : state sys = loadingState).
  { apply loading_cells; [exact Hr|].
    unfold generationState in Hload.
    destruct (isLoading (state sys)); [done|]. by repeat case_match. }
  pose proof (step_files_nonempty _ _ Hr _ f files Hi) as Hstep1.
  pose proof (reachable_step _ _ _ Hr Hstep1) as Hr1.
  assert (Hi1 : <[i := OnOverview afterOverview]> (pending sys) !! i =
                Some (OnOverview afterOverview)).
  { apply list_lookup_insert_eq. by eapply lookup_lt_Some. }
  pose proof (step_overview_resolved _ i Hr1 _ overview Hi1) as Hstep2.
  do 2 eexists. split; [exact Hstep1|]. split; [reflexivity|].
  split; [reflexivity|]. split; [exact Hstep2|].
  cbn [finishedWith state window_marked calls pending succeeded].
  rewrite Hcells. unfold generationState, mainRegion, renderedHtml.
  unfold succeeded, loadingState.
  cbn [isLoading error overviewContent truthy_opt].
  rewrite Htext. split_and!; try reflexivity.
  apply delete_insert_same.
Qed.

Lemma successful_attempt_witness :
  exists waiting finished,
    step awaitingFiles (SettleFiles 0 (Resolved [fileA; fileB])) = Some waiting /\
    state waiting = state awaitingFiles /\
    calls waiting =
      calls awaitingFiles ++ [CallGenerateCodebaseOverview (assemble [fileA; fileB])] /\
    step waiting (SettleOverview 0 (Resolved "# Overview")) = Some finished /\
    generationState (state finished) = Success "# Overview" /\
    mainRegion (window_marked finished) (state finished) = Article "" /\
    calls finished = calls waiting /\
    pending finished = delete 0 (pending awaitingFiles).
Proof.
  apply (successful_attempt awaitingFiles 0 afterFiles fileA [fileB] "# Overview");
    [exact reachable_awaitingFiles | reflexivity | reflexivity | reflexivity].
Defined.

(** X8: an overview that arrives after the panel was dismissed is kept:
    nothing is rendered while the panel is closed, reopening it runs the
    effect without resetting anything, and the panel then opens on the
    article of that overview instead of the call-to-action. *)
Theorem late_overview_shown_on_reopen sys i k overview :
  reachable sys ->
  isOpen (props sys) = true ->
  pending sys !! i = Some (OnOverview k) ->
  truthy overview = true ->
  exists closed late reopened,
    step sys (SetOpen false) = Some closed /\
    step closed (SettleOverview i (Resolved overview)) = Some late /\
    render (window_marked late) (props late) (state late) = None /\
    step late (SetOpen true) = Some reopened /\
    state reopened = state late /\
    render (window_marked reopened) (props reopened) (state reopened) =
      Some (Article (match window_marked sys with
                     | Some parse => parse overview
                     | None => ""
                     end)).
Proof.
  intros Hr Hopen Hi Htext.
  assert (Hstep1 : step sys (SetOpen false) =
                   Some {| window_marked := window_marked sys;
                           props := withOpen (props sys) false;
                           state := initialState;
                           pending := pending sys; calls := calls sys |}).
  { cbn [step]. by rewrite Hopen. }
  pose proof (reachable_step _ _ _ Hr Hstep1) as Hr1.
  pose proof (step_overview_resolved _ i Hr1 _ overview Hi) as Hstep2.
  do 3 eexists. split; [exact Hstep1|]. split; [exact Hstep2|].
  split; [reflexivity|]. split; [reflexivity|].
  cbn. unfold mainRegion, renderedHtml. cbn. by rewrite Htext.
Qed.

Lemma late_overview_shown_on_reopen_witness :
  exists closed late reopened,
    step awaitingOverview (SetOpen false) = Some closed /\
    step closed (SettleOverview 0 (Resolved "# Overview")) = Some late /\
    render (window_marked late) (props late) (state late) = None /\
    step late (SetOpen true) = Some reopened /\
    state reopened = state late /\
    render (window_marked reopened) (props reopened) (state reopened) =
      Some (Article "").
Proof.
  apply (late_overview_shown_on_reopen awaitingOverview 0 afterOverview "# Overview");
    [exact reachable_awaitingOverview | reflexivity | reflexivity | reflexivity].
Defined.

(** X9: the settlement of a generation request writes one of the two
    payload cells and leaves the other as it is: an overview that arrives
    while a failure of another call is on display does not replace the
    failure, and a rejection does not erase an overview already stored,
    which the error display then hides. *)
Theorem settlement_keeps_other_cell sys i k :
  reachable sys ->
  pending sys !! i = Some (OnOverview k) ->
  (forall overview, exists sys',
      step sys (SettleOverview i (Resolved overview)) = Some sys' /\
      overviewContent (state sys') = overview /\
      error (state sys') = error (state sys) /\
      forall msg, generationState (state sys) = Failure msg ->
                  generationState (state sys') = Failure msg) /\
  (forall e, exists sys',
      step sys (SettleOverview i (Rejected e)) = Some sys' /\
      overviewContent (state sys') = overviewContent (state sys) /\
      exists msg, mainRegion (window_marked sys') (state sys') = ErrorDisplay msg).
Proof.
  intros Hr Hi. split.
  - intros overview.
    eexists; split; [exact (step_overview_resolved _ _ Hr _ overview Hi)|].
    split_and!; [done | done |].
    intros msg. unfold generationState; cbn.
    destruct (isLoading (state sys)); [discriminate|].
    destruct (truthy_opt (error (state sys))); [done|].
    by destruct (truthy (overviewContent (state sys))).
  - intros e.
    eexists; split; [exact (step_overview_rejected _ _ Hr _ e Hi)|].
    split; [done|]. by eexists.
Qed.

Lemma settlement_keeps_other_cell_witness :
  generationState (state failedWhileAwaiting) =
    Failure "Failed to generate overview: quota exceeded" /\
  exists sys',
    step failedWhileAwaiting (SettleOverview 0 (Resolved "# Overview")) = Some sys' /\
    overviewContent (state sys') = "# Overview" /\
    error (state sys') = error (state failedWhileAwaiting) /\
    forall msg, generationState (state failedWhileAwaiting) = Failure msg ->
                generationState (state sys') = Failure msg.
Proof.
  split; [reflexivity|].
  exact (proj1 (settlement_keeps_other_cell failedWhileAwaiting 0 afterOverview
                  reachable_failedWhileAwaiting eq_refl) "# Overview").
Defined.

(** X10: once a failure or an overview is on display the button is gone,
    and the only way to start again is to dismiss the panel and open it
    again: that resets the cells and brings the button back. *)
Theorem retry_needs_reopening sys :
  isOpen (props sys) = true ->
  generationState (state sys) <> Idle ->
  step sys ClickGenerate = None /\
  exists closed reopened,
    step sys (SetOpen false) = Some closed /\
    step closed (SetOpen true) = Some reopened /\
    state reopened = initialState /\
    render (window_marked reopened) (props reopened) (state reopened) =
      Some CallToAction /\
    is_Some (step reopened ClickGenerate).
Proof.
  intros Hopen Hbusy. split.
  - cbn [step]. unfold render, mainRegion. unfold generationState in Hbusy.
    rewrite Hopen. cbn [negb]. by repeat case_match.
  - do 2 eexists. split; [reflexivity|]. split; [reflexivity|].
    cbn. rewrite Hopen. cbn. split_and!; [done | done | by eexists].
Qed.

Lemma retry_needs_reopening_witness :
  step showingFailure ClickGenerate = None /\
  exists closed reopened,
    step showingFailure (SetOpen false) = Some closed /\
    step closed (SetOpen true) = Some reopened /\
    state reopened = initialState /\
    render (window_marked reopened) (props reopened) (state reopened) =
      Some CallToAction /\
    is_Some (step reopened ClickGenerate).
Proof.
  apply (retry_needs_reopening showingFailure); [reflexivity | discriminate].
Defined.

(** ** Ambiguity of the document *)

Lemma block_merged f g : block (merged f g) = block f +:+ nl +:+ block g.
Proof. unfold block, merged; cbn [path content]. by rewrite !append_assoc. Qed.

(** X11: the file contents are not escaped, so the document does not
    determine the files: two neighbouring files give the same document as
    the single file whose content runs from the content of the first over
    the separator and the header of the second to the content of the
    second. *)
Theorem document_is_ambiguous f g rest :
  assemble (f :: g :: rest) = assemble (merged f g :: rest) /\
  f :: g :: rest <> merged f g :: rest.
Proof.
  split.
  - destruct rest as [|h rest].
    + change (assemble [merged f g]) with (block (merged f g)).
      by rewrite block_merged.
    + rewrite !assemble_cons, block_merged. by rewrite !append_assoc.
  - intros H. apply (f_equal length) in H. cbn in H. lia.
Qed.

(** ** Overlapping attempts *)

Lemma reachable_twoAwaiting : reachable twoAwaiting.
Proof.
  apply (reachable_exec (mount None exampleProps) twoAwaitingTrace);
    [constructor | reflexivity].
Qed.

(** X12: dismissing the panel cancels nothing: the suspended calls stay
    suspended, and after reopening the button is back, so a click starts
    one more call beside them and sends one more files request. *)
Theorem dismissal_does_not_cancel sys :
  isOpen (props sys) = true ->
  exists closed reopened again,
    step sys (SetOpen false) = Some closed /\
    pending closed = pending sys /\
    step closed (SetOpen true) = Some reopened /\
    step reopened ClickGenerate = Some again /\
    pending again = pending sys ++ [OnFiles afterFiles] /\
    calls again = calls sys ++ [CallGetAllFileContents (fetchArgs (props sys))].
Proof.
  intros Hopen. do 3 eexists.
  split; [reflexivity|]. split; [reflexivity|]. split; [reflexivity|].
  cbn [step window_marked props state pending calls]. rewrite Hopen.
  cbn [Bool.eqb resetEffect negb render withOpen isOpen mainRegion
       isLoading error overviewContent truthy_opt truthy String.eqb].
  rewrite run_handleGenerate. cbn [resumed pending].
  rewrite decide_False by lia.
  split; [reflexivity|]. split; [reflexivity|].
  cbn [calls]. unfold fetchArgs. by destruct (props sys).
Qed.

Lemma dismissal_does_not_cancel_witness :
  exists closed reopened again,
    step awaitingOverview (SetOpen false) = Some closed /\
    pending closed = pending awaitingOverview /\
    step closed (SetOpen true) = Some reopened /\
    step reopened ClickGenerate = Some again /\
    pending again = [OnOverview afterOverview; OnFiles afterFiles] /\
    calls again = calls awaitingOverview ++
                  [CallGetAllFileContents (fetchArgs exampleProps)].
Proof.
  apply (dismissal_does_not_cancel awaitingOverview). reflexivity.
Defined.

(** X13: with two generation requests in flight the overview on display
    is the one that arrives last, not the one of the call started last:
    when the request of the later call resolves first and the request of
    the earlier call after it, the cell ends up holding the overview of the
    earlier call. *)
Theorem last_arrival_wins sys i j ki kj older newer :
  reachable sys ->
  i < j ->
  pending sys !! i = Some (OnOverview ki) ->
  pending sys !! j = Some (OnOverview kj) ->
  exists first second,
    step sys (SettleOverview j (Resolved newer)) = Some first /\
    overviewContent (state first) = newer /\
    step first (SettleOverview i (Resolved older)) = Some second /\
    overviewContent (state second) = older /\
    isLoading (state second) = false.
Proof.
  intros Hr Hlt Hi Hj.
  pose proof (step_overview_resolved _ _ Hr _ newer Hj) as Hstep1.
  pose proof (reachable_step _ _ _ Hr Hstep1) as Hr1.
  assert (Hi1 : pending (finishedWith sys j (succeeded (state sys) newer)) !! i =
                Some (OnOverview ki)).
  { cbn [finishedWith pending]. by rewrite list_lookup_delete_lt. }
  pose proof (step_overview_resolved _ _ Hr1 _ older Hi1) as Hstep2.
  do 2 eexists. split; [exact Hstep1|]. split; [reflexivity|].
  split; [exact Hstep2|]. by split.
Qed.

Lemma last_arrival_wins_witness :
  exists first second,
    step twoAwaiting (SettleOverview 1 (Resolved "# of b.txt")) = Some first /\
    overviewContent (state first) = "# of b.txt" /\
    step first (SettleOverview 0 (Resolved "# of a.txt")) = Some second /\
    overviewContent (state second) = "# of a.txt" /\
    isLoading (state second) = false.
Proof.
  apply (last_arrival_wins twoAwaiting 0 1 afterOverview afterOverview
           "# of a.txt" "# of b.txt");
    [exact reachable_twoAwaiting | lia | reflexivity | reflexivity].
Defined.

(** ** States held and region shown *)

Lemma reachable_bothPayloads : reachable bothPayloads.
Proof.
  apply (reachable_exec failedWhileAwaiting
           [SettleOverview 0 (Resolved "# Overview")]);
    [exact reachable_failedWhileAwaiting | reflexivity].
Qed.

(** A stored error message is never the empty string. *)
Lemma stored_error_truthy sys message :
  reachable sys -> error (state sys) = Some message -> truthy message = true.
Proof.
  induction 1 as [marked p | sys ev sys' Hr IH Hstep].
  - cbn. by destruct (isOpen p).
  - destruct (step_transition _ _ _ Hr Hstep) as
      [b | Hopen Hidle | i msg Hi | i f files Hi | i overview Hi | i e Hi];
      cbn [finishedWith state failed succeeded error loadingState];
      try done; try (by intros [= <-]).
    destruct (Bool.eqb b (isOpen (props sys))); [done|].
    by destruct b.
Qed.

Lemma truthy_nonempty s : truthy s = true <-> s <> "".
Proof.
  unfold truthy. by destruct (String.eqb_spec s ""); cbn; split.
Qed.

(** The claim of C8 fails: after two overlapping calls, one failed and one
    answered, the cells hold a [Failure] message and a [Success] content at
    the same time; two states are held, and only the error is shown. *)
Lemma both_payloads_held :
  reachable bothPayloads /\
  holds (state bothPayloads) (Success "# Overview") /\
  holds (state bothPayloads) (Failure "Failed to generate overview: quota exceeded") /\
  Success "# Overview" <> Failure "Failed to generate overview: quota exceeded" /\
  render (window_marked bothPayloads) (props bothPayloads) (state bothPayloads) =
    Some (ErrorDisplay "Failed to generate overview: quota exceeded").
Proof.
  split; [exact reachable_bothPayloads|]. by repeat split.
Qed.

(** C8, as the code has it: in every reachable system at least one state
    is held; [Loading] and [Idle] are each held alone, and two different
    states are held together only when they are a [Success] content and a
    [Failure] message.  Whatever is held, the conditional inside [<main>]
    yields one region, chosen in the order loading indicator, error
    display with the stored message, article with the markup of the stored
    content, call-to-action; the component returns it when the panel is
    open and nothing when it is closed. *)
Theorem regions_by_priority sys :
  reachable sys ->
  let s := state sys in
  (exists g, holds s g) /\
  (forall g1 g2,
     holds s g1 -> holds s g2 ->
     g1 = g2 \/
     exists content message,
       (g1 = Success content /\ g2 = Failure message) \/
       (g1 = Failure message /\ g2 = Success content)) /\
  mainRegion (window_marked sys) s =
    (if isLoading s then LoadingIndicator
     else match error s with
          | Some message => ErrorDisplay message
          | None =>
              if decide (overviewContent s = "") then CallToAction
              else Article (match window_marked sys with
                            | Some parse => parse (overviewContent s)
                            | None => ""
                            end)
          end) /\
  render (window_marked sys) (props sys) s =
    (if isOpen (props sys) then Some (mainRegion (window_marked sys) s) else None).
Proof.
  intros Hr s. subst s.
  pose proof (loading_cells _ Hr) as Hload.
  pose proof (fun m => stored_error_truthy _ m Hr) as Herr.
  split_and!.
  - destruct (isLoading (state sys)) eqn:Hl; [by exists Loading|].
    destruct (error (state sys)) as [m|] eqn:He; [by exists (Failure m)|].
    destruct (decide (overviewContent (state sys) = "")) as [Hc|Hc].
    + by exists Idle.
    + by exists (Success (overviewContent (state sys))).
  - intros g1 g2 H1 H2.
    destruct g1 as [| |c1|m1], g2 as [| |c2|m2]; cbn [holds] in H1, H2;
      destruct_and?;
      first
        [ left; congruence
        | right; eexists _, _;
          first [left; split; reflexivity | right; split; reflexivity]
        | exfalso;
          match goal with
          | H : isLoading _ = true |- _ => rewrite (Hload H) in *
          end;
          cbn in *; congruence ].
  - unfold mainRegion, renderedHtml.
    destruct (isLoading (state sys)); [done|].
    destruct (error (state sys)) as [m|] eqn:He; cbn [truthy_opt default].
    + by rewrite (Herr m eq_refl).
    + destruct (decide (overviewContent (state sys) = "")) as [Hc|Hc].
      * by rewrite Hc.
      * by rewrite (proj2 (truthy_nonempty _) Hc).
  - unfold render. by destruct (isOpen (props sys)).
Qed.

Lemma regions_by_priority_witness :
  (exists g, holds (state awaitingOverview) g) /\
  mainRegion (window_marked awaitingOverview) (state awaitingOverview) = LoadingIndicator /\
  render (window_marked awaitingOverview) (props awaitingOverview) (state awaitingOverview) =
    Some LoadingIndicator.
Proof.
  pose proof (regions_by_priority awaitingOverview reachable_awaitingOverview)
    as (Hheld & _ & Hregion & Hrender).
  split; [exact Hheld|]. split; [exact Hregion | exact Hrender].
Defined.

(** The claim of C9 fails: the earlier of two overlapping calls is still
    waiting for its overview when the later one fails; its request then
    resolves with the empty string, and what is rendered is the error
    display of the other call, with no button to start again. *)
Lemma empty_overview_behind_failure :
  reachable failedWhileAwaiting /\
  exists sys',
    step failedWhileAwaiting (SettleOverview 0 (Resolved "")) = Some sys' /\
    render (window_marked sys') (props sys') (state sys') =
      Some (ErrorDisplay "Failed to generate overview: quota exceeded") /\
    render (window_marked sys') (props sys') (state sys') <> Some CallToAction /\
    step sys' ClickGenerate = None.
Proof.
  split; [exact reachable_failedWhileAwaiting|].
  eexists. split; [reflexivity|]. by repeat split.
Qed.

(** C9, as the code has it: when the generation request resolves with the
    empty string, [isLoading] and [overviewContent] are cleared and the
    error cell keeps what it held.  With no message stored, which is
    always so when the state was [Loading], the three cells are back at
    their initial values: the state is [Idle], the region is the
    call-to-action and with the panel open the button can be clicked
    again.  With the message of an overlapping call stored, the region is
    the error display of that message and there is no button.  In neither
    case is the article rendered. *)
Theorem empty_overview_rendering sys i k :
  reachable sys ->
  pending sys !! i = Some (OnOverview k) ->
  exists sys',
    step sys (SettleOverview i (Resolved "")) = Some sys' /\
    isLoading (state sys') = false /\
    overviewContent (state sys') = "" /\
    error (state sys') = error (state sys) /\
    (generationState (state sys) = Loading -> error (state sys) = None) /\
    match error (state sys) with
    | None =>
        state sys' = initialState /\
        generationState (state sys') = Idle /\
        mainRegion (window_marked sys') (state sys') = CallToAction /\
        render (window_marked sys') (props sys') (state sys') =
          (if isOpen (props sys) then Some CallToAction else None) /\
        (isOpen (props sys) = true -> is_Some (step sys' ClickGenerate))
    | Some message =>
        generationState (state sys') = Failure message /\
        mainRegion (window_marked sys') (state sys') = ErrorDisplay message /\
        step sys' ClickGenerate = None
    end.
Proof.
  intros Hr Hi.
  eexists; split; [exact (step_overview_resolved _ _ Hr _ "" Hi)|].
  cbn [finishedWith state window_marked props succeeded isLoading
       overviewContent error].
  split_and!; try reflexivity.
  - intros Hload. unfold generationState in Hload.
    rewrite (loading_cells _ Hr); [done|].
    destruct (isLoading (state sys)); [done|]. by repeat case_match.
  - destruct (error (state sys)) as [message|] eqn:He.
    + pose proof (stored_error_truthy _ _ Hr He) as Ht.
      unfold generationState, mainRegion, succeeded.
      cbn [isLoading error]. rewrite He.
      cbn [truthy_opt default]. rewrite Ht.
      split_and!; try reflexivity.
      cbn [step finishedWith window_marked props state].
      unfold render, mainRegion. cbn [isLoading error truthy_opt].
      rewrite Ht.
      by destruct (isOpen (props sys)).
    + unfold generationState, mainRegion, render, succeeded, initialState.
      cbn [step finishedWith window_marked props state].
      unfold render, mainRegion.
      cbn [isLoading error overviewContent]. rewrite He.
      split_and!; try reflexivity.
      * by destruct (isOpen (props sys)).
      * intros Hopen. rewrite Hopen. cbn. eauto.
Qed.

Lemma empty_overview_rendering_witness :
  exists sys',
    step awaitingOverview (SettleOverview 0 (Resolved "")) = Some sys' /\
    state sys' = initialState /\
    generationState (state sys') = Idle /\
    mainRegion (window_marked sys') (state sys') = CallToAction /\
    render (window_marked sys') (props sys') (state sys') = Some CallToAction /\
    (isOpen (props awaitingOverview) = true -> is_Some (step sys' ClickGenerate)).
Proof.
  destruct (empty_overview_rendering awaitingOverview 0 afterOverview
              reachable_awaitingOverview eq_refl)
    as (sys' & Hstep & _ & _ & _ & _ & Hidle).
  exists sys'. split; [exact Hstep | exact Hidle].
Defined.
